(** * RainCache: the message cache ([src/cache/MessageCache.js])

    A shallow embedding of [MessageCache] and of the collaborators it
    calls (the storage engine and the index kept by [BaseCache]), with
    the properties of the bound / unbound cache pattern.

    JavaScript objects are finite maps from field names to values, the
    storage engine is an interface (a type class), asynchronous calls
    are sequenced in a state monad over the world the cache talks to,
    and every call into a collaborator is recorded in a log. *)

From stdpp Require Import base option gmap strings list.

Open Scope string_scope.
Open Scope list_scope.

(** ** JavaScript values *)

(** The primitive values that flow through the cache as ids and as
    field values: a string, or [undefined] (what reading a missing
    field yields). *)
Inductive JsVal : Type :=
  | JUndefined
  | JStr (s : string).

#[global] Instance JsVal_eq_dec : EqDecision JsVal.
Proof. solve_decision. Defined.

Definition JsVal_to_option (v : JsVal) : option string :=
  match v with JUndefined => None | JStr s => Some s end.

Definition JsVal_of_option (o : option string) : JsVal :=
  match o with None => JUndefined | Some s => JStr s end.

#[global] Instance JsVal_countable : Countable JsVal.
Proof.
  apply (inj_countable' JsVal_to_option JsVal_of_option).
  intros []; reflexivity.
Defined.

(** [`${v}`]: the string a template literal interpolates for [v]. *)
Definition toString (v : JsVal) : string :=
  match v with
  | JUndefined => "undefined"
  | JStr s => s
  end.

(** JavaScript truthiness of a primitive: [undefined] and the empty
    string are falsy. *)
Definition truthy (v : JsVal) : bool :=
  match v with
  | JUndefined => false
  | JStr "" => false
  | JStr _ => true
  end.

(** An entity (a message) is an object: a finite map from field names
    to values. *)
Abbreviation Entity := (gmap string JsVal).

(** [e.f]: reading a field; a missing field reads as [undefined]. *)
Definition field (e : Entity) (f : string) : JsVal :=
  default JUndefined (e !! f).

(** [e.f = v] *)
Definition set_field (e : Entity) (f : string) (v : JsVal) : Entity :=
  <[f := v]> e.

(** ** The storage engine *)

(** The capability contract the cache consumes.  [S] is the state of
    the engine; [get], [filter] and [find] only read it. *)
Class StorageEngine (S : Type) := {
  se_get : S → string → option Entity;
  se_upsert : S → string → Entity → S;
  se_remove : S → string → S * JsVal;
  se_filter : S → (Entity → bool) → option (list JsVal) → list Entity;
  se_find : S → (Entity → bool) → option (list JsVal) → option Entity;
}.

(** An in-memory engine: a map from keys to entities. *)
Definition mem_candidates (s : gmap string Entity)
    (ids : option (list JsVal)) : list Entity :=
  match ids with
  | None => (map_to_list s).*2
  | Some l => omap (λ id, s !! toString id) l
  end.

#[global] Instance MemoryEngine : StorageEngine (gmap string Entity) := {
  se_get s k := s !! k;
  se_upsert s k e := <[k := e]> s;
  se_remove s k := (delete k s, JUndefined);
  se_filter s fn ids := List.filter fn (mem_candidates s ids);
  se_find s fn ids := head (List.filter fn (mem_candidates s ids));
}.

(** ** The world and the monad of asynchronous calls *)

(** What the cache asks of its collaborators, in the order asked. *)
Inductive Event : Type :=
  | EGet (key : string)
  | EUpsert (key : string) (data : Entity)
  | ERemove (key : string)
  | EFilter (ids : option (list JsVal))
  | EFind (ids : option (list JsVal))
  | EAddToIndex (id : JsVal)
  | ERemoveFromIndex (id : JsVal).

Record World (S : Type) : Type := mkWorld {
  engine : S;
  index : gset JsVal;
  log : list Event;
}.
Arguments mkWorld {S} _ _ _.
Arguments engine {S} _.
Arguments index {S} _.
Arguments log {S} _.

(** The outcome of running an operation: it returns a value in a new
    world, it throws, or the recursion budget is used up before it
    returns. *)
Inductive Outcome (W A : Type) : Type :=
  | Returned (a : A) (w : W)
  | Thrown (err : string)
  | OutOfFuel.
Arguments Returned {W A} _ _.
Arguments Thrown {W A} _.
Arguments OutOfFuel {W A}.

Definition Async (W A : Type) : Type := W → Outcome W A.

Definition ret {W A} (a : A) : Async W A := λ w, Returned a w.

Definition await {W A B} (m : Async W A) (k : A → Async W B) : Async W B :=
  λ w, match m w with
       | Returned a w' => k a w'
       | Thrown err => Thrown err
       | OutOfFuel => OutOfFuel
       end.

Definition throw {W A} (err : string) : Async W A := λ _, Thrown err.

Definition out_of_fuel {W A} : Async W A := λ _, OutOfFuel.

Notation "'let!' x ':=' 'await' m 'in' k" := (await m (λ x, k))
  (at level 10, x name, m at level 100, k at level 200,
   format "'[v' 'let!'  x  ':='  'await'  m  'in'  '/' k ']'").
Notation "'do!' 'await' m 'in' k" := (await m (λ _, k))
  (at level 10, m at level 100, k at level 200,
   format "'[v' 'do!'  'await'  m  'in'  '/' k ']'").

(** ** Calls into the collaborators *)

Section Collaborators.
Context {S : Type} `{!StorageEngine S}.

Definition record (ev : Event) (w : World S) : list Event := log w ++ [ev].

(** [storageEngine.get(key)] *)
Definition storage_get (key : string) : Async (World S) (option Entity) :=
  λ w, Returned (se_get (engine w) key)
                (mkWorld (engine w) (index w) (record (EGet key) w)).

(** [storageEngine.upsert(key, data)] *)
Definition storage_upsert (key : string) (data : Entity)
    : Async (World S) unit :=
  λ w, Returned tt
         (mkWorld (se_upsert (engine w) key data) (index w)
                  (record (EUpsert key data) w)).

(** [storageEngine.remove(key)] *)
Definition storage_remove (key : string) : Async (World S) JsVal :=
  λ w, let '(s, r) := se_remove (engine w) key in
       Returned r (mkWorld s (index w) (record (ERemove key) w)).

(** [storageEngine.filter(fn, ids)] *)
Definition storage_filter (fn : Entity → bool) (ids : option (list JsVal))
    : Async (World S) (list Entity) :=
  λ w, Returned (se_filter (engine w) fn ids)
                (mkWorld (engine w) (index w) (record (EFilter ids) w)).

(** [storageEngine.find(fn, ids)] *)
Definition storage_find (fn : Entity → bool) (ids : option (list JsVal))
    : Async (World S) (option Entity) :=
  λ w, Returned (se_find (engine w) fn ids)
                (mkWorld (engine w) (index w) (record (EFind ids) w)).

(** Modelled from the spec: [BaseCache.addToIndex], which is not part
    of the sources at hand.  The index is the set of ids known under
    the namespace; adding an id puts it in the set. *)
Definition addToIndex (id : JsVal) : Async (World S) unit :=
  λ w, Returned tt
         (mkWorld (engine w) ({[id]} ∪ index w) (record (EAddToIndex id) w)).

(** Modelled from the spec: [BaseCache.removeFromIndex], which is not
    part of the sources at hand.  Removing an id takes it out of the
    set. *)
Definition removeFromIndex (id : JsVal) : Async (World S) unit :=
  λ w, Returned tt
         (mkWorld (engine w) (index w ∖ {[id]})
                  (record (ERemoveFromIndex id) w)).
End Collaborators.

(** ** The cache instance *)

(** The two states of the base contract's state machine. *)
Inductive BindState : Type := Unbound | Bound.

(** A cache instance.  [boundObject] is a nullable reference ([None]
    is [undefined] / [null]).  The reference to the storage engine is
    the world the operations run in. *)
Record MessageCache : Type := mkMessageCache {
  namespace : string;
  state : BindState;
  boundObject : option Entity;
}.

#[global] Instance BindState_eq_dec : EqDecision BindState.
Proof. solve_decision. Defined.

(** Modelled from the spec: [BaseCache.bindObject], which is not part
    of the sources at hand.  It moves the calling instance to the bound
    state and stores the reference it is given. *)
Definition bindObject (this : MessageCache) (boundObject : option Entity)
    : MessageCache :=
  mkMessageCache (namespace this) Bound boundObject.

(** [new MessageCache(storageEngine, boundObject)]:
    the namespace is ['message'], and the instance is bound only when
    the argument is truthy. *)
Definition new_MessageCache (boundObject : option Entity) : MessageCache :=
  let this := mkMessageCache "message" Unbound None in
  match boundObject with
  | Some _ => bindObject this boundObject
  | None => this
  end.

(** [buildId(messageId)]: [`${this.namespace}.${messageId}`] *)
Definition buildId (this : MessageCache) (messageId : JsVal) : string :=
  namespace this +:+ "." +:+ toString messageId.

(** What an operation of the cache may hand back. *)
Inductive Value : Type :=
  | VNull
  | VJs (v : JsVal)
  | VEntity (e : Entity)
  | VCache (c : MessageCache).

Section Cache.
Context {S : Type} `{!StorageEngine S}.

(** [get(id)] *)
Definition get (this : MessageCache) (id : JsVal)
    : Async (World S) Value :=
  match boundObject this with
  | Some bound => ret (VEntity bound)
  | None =>
      let! message := await storage_get (buildId this id) in
      match message with
      | None => ret VNull
      | Some m => ret (VCache (new_MessageCache (Some m)))
      end
  end.

(** [update(id, data)].  The instance the call was made on is mutable,
    so the result is the pair of that instance after the call and the
    instance the call returns.  The recursive call of the bound branch
    spends one unit of [fuel]. *)
Fixpoint update (fuel : nat) (this : MessageCache) (id : JsVal)
    (data : Entity) : Async (World S) (MessageCache * MessageCache) :=
  match boundObject this with
  | Some _ =>
      let this := bindObject this (Some data) in
      match boundObject this with
      | None => throw "TypeError"
      | Some bound =>
          match fuel with
          | O => out_of_fuel
          | Datatypes.S fuel' =>
              let! r := await update fuel' this (field bound "id") data in
              ret (r.1, r.1)
          end
      end
  | None =>
      let data :=
        if negb (truthy (field data "id")) then set_field data "id" id
        else data in
      do! await addToIndex id in
      do! await storage_upsert (buildId this id) data in
      ret (this, new_MessageCache (Some data))
  end.

(** [remove(id)].  The recursive call of the bound branch spends one
    unit of [fuel]. *)
Fixpoint remove (fuel : nat) (this : MessageCache) (id : JsVal)
    : Async (World S) Value :=
  match boundObject this with
  | Some bound =>
      match fuel with
      | O => out_of_fuel
      | Datatypes.S fuel' => remove fuel' this (field bound "id")
      end
  | None =>
      let! message := await storage_get (buildId this id) in
      match message with
      | Some _ =>
          do! await removeFromIndex id in
          let! r := await storage_remove (buildId this id) in
          ret (VJs r)
      | None => ret VNull
      end
  end.

(** [filter(fn, ids = null)] *)
Definition filter (this : MessageCache) (fn : Entity → bool)
    (ids : option (list JsVal)) : Async (World S) (list MessageCache) :=
  let! message := await storage_filter fn ids in
  ret (map (λ r, new_MessageCache (Some r)) message).

(** [find(fn, ids = null)] *)
Definition find (this : MessageCache) (fn : Entity → bool)
    (ids : option (list JsVal)) : Async (World S) Value :=
  let! message := await storage_find fn ids in
  ret (VCache (new_MessageCache message)).

(** The instances the cache hands out. *)
Inductive produced : MessageCache → Prop :=
  | produced_new arg : produced (new_MessageCache arg)
  | produced_get this id w c w' :
      get this id w = Returned (VCache c) w' → produced c
  | produced_update fuel this id data w this' c w' :
      update fuel this id data w = Returned (this', c) w' → produced c
  | produced_filter this fn ids w cs w' c :
      filter this fn ids w = Returned cs w' → c ∈ cs → produced c
  | produced_find this fn ids w c w' :
      find this fn ids w = Returned (VCache c) w' → produced c.
End Cache.

(** ** Sample data *)

Definition msg_hi : Entity := {[ "content" := JStr "hi" ]}.

Definition msg_42 : Entity := <[ "id" := JStr "42" ]> msg_hi.

Definition msg_42_edited : Entity := <[ "content" := JStr "edited" ]> msg_42.

Definition msg_7 : Entity := {[ "id" := JStr "7" ]}.

Definition empty_world : World (gmap string Entity) := mkWorld ∅ ∅ [].

(** The world after [update("42", {content: "hi"})] on an empty one. *)
Definition world_42 : World (gmap string Entity) :=
  mkWorld {[ "message.42" := msg_42 ]} {[ JStr "42" ]}
          [EAddToIndex (JStr "42"); EUpsert "message.42" msg_42].

(** The data as [update] stores it: [if (!data.id) data.id = id]. *)
Definition assign_id (id : JsVal) (data : Entity) : Entity :=
  if negb (truthy (field data "id")) then set_field data "id" id else data.

(** ** Engines that behave as key-value stores *)

(** What a client of the cache expects of an engine: a key reads back
    what was last upserted at it, reads nothing once removed, and
    writes at one key leave the other keys alone. *)
Class LawfulEngine (S : Type) `{!StorageEngine S} : Prop := {
  get_upsert_eq (s : S) k e : se_get (se_upsert s k e) k = Some e;
  get_upsert_ne (s : S) k k' e :
    k ≠ k' → se_get (se_upsert s k e) k' = se_get s k';
  get_remove_eq (s : S) k : se_get (se_remove s k).1 k = None;
  get_remove_ne (s : S) k k' :
    k ≠ k' → se_get (se_remove s k).1 k' = se_get s k';
}.

(** ** Clients of an unbound cache *)

(** A call with a string id, as the JSDoc types it. *)
Inductive Call : Type :=
  | CallGet (id : string)
  | CallUpdate (id : string) (data : Entity)
  | CallRemove (id : string)
  | CallFilter (fn : Entity → bool) (ids : option (list JsVal))
  | CallFind (fn : Entity → bool) (ids : option (list JsVal)).

Section Clients.
Context {S : Type} `{!StorageEngine S}.

(** One call, awaited, its result dropped. *)
Definition call (this : MessageCache) (c : Call) : Async (World S) unit :=
  match c with
  | CallGet id => do! await get this (JStr id) in ret tt
  | CallUpdate id data => do! await update 0 this (JStr id) data in ret tt
  | CallRemove id => do! await remove 0 this (JStr id) in ret tt
  | CallFilter fn ids => do! await filter this fn ids in ret tt
  | CallFind fn ids => do! await find this fn ids in ret tt
  end.

(** Calls awaited one after the other. *)
Fixpoint calls (this : MessageCache) (cs : list Call)
    : Async (World S) unit :=
  match cs with
  | [] => ret tt
  | c :: cs => do! await call this c in calls this cs
  end.

(** The index holds exactly the string ids whose key the engine has an
    entity for. *)
Definition in_sync (this : MessageCache) (w : World S) : Prop :=
  ∀ v, v ∈ index w ↔
       ∃ s, v = JStr s ∧ is_Some (se_get (engine w) (buildId this v)).
End Clients.

(** A world whose index and store went apart: [7] is stored but not
    indexed. *)
Definition world_42_7 : World (gmap string Entity) :=
  mkWorld {[ "message.42" := msg_42; "message.7" := msg_7 ]}
          {[ JStr "42" ]} [].

Definition has_content (e : Entity) : bool :=
  bool_decide (is_Some (e !! "content")).

(** ** Basic facts *)

Example world_42_is_reached :
  update 0 (new_MessageCache None) (JStr "42") msg_hi empty_world
    = Returned (new_MessageCache None, new_MessageCache (Some msg_42)) world_42.
Proof. vm_compute. reflexivity. Qed.

Lemma append_inj_l (p a b : string) : p +:+ a = p +:+ b → a = b.
Proof.
  induction p as [|c p IH]; simpl; [done|].
  intros H. apply IH. by injection H.
Qed.

Lemma boundObject_bindObject this o : boundObject (bindObject this o) = o.
Proof. reflexivity. Qed.

Lemma new_MessageCache_bound e :
  new_MessageCache (Some e) = mkMessageCache "message" Bound (Some e).
Proof. reflexivity. Qed.

Lemma new_MessageCache_unbound :
  new_MessageCache None = mkMessageCache "message" Unbound None.
Proof. reflexivity. Qed.

Lemma new_MessageCache_state arg :
  state (new_MessageCache arg) = Bound ↔ arg ≠ None.
Proof. destruct arg; simpl; split; congruence. Qed.

Lemma new_MessageCache_boundObject arg :
  boundObject (new_MessageCache arg) = arg.
Proof. by destruct arg. Qed.

Section CacheFacts.
Context {S : Type} `{!StorageEngine S}.
Implicit Types (this : MessageCache) (id : JsVal) (data : Entity).
Implicit Types (w : World S).

(** On a bound instance [get] hands back the bound entity and asks
    nothing of the engine. *)
Lemma get_bound this id w e :
  boundObject this = Some e → get this id w = Returned (VEntity e) w.
Proof. intros H. unfold get. by rewrite H. Qed.

Lemma get_unbound this id w :
  boundObject this = None →
  get this id w =
    Returned
      match se_get (engine w) (buildId this id) with
      | None => VNull
      | Some m => VCache (new_MessageCache (Some m))
      end
      (mkWorld (engine w) (index w) (log w ++ [EGet (buildId this id)])).
Proof.
  intros H. unfold get, await, storage_get, record. rewrite H.
  by destruct (se_get _ _).
Qed.

(** The unbound branch of [update] returns whatever the fuel. *)
Lemma update_unbound fuel this id data w :
  boundObject this = None →
  update fuel this id data w =
    Returned (this, new_MessageCache (Some (assign_id id data)))
      (mkWorld (se_upsert (engine w) (buildId this id) (assign_id id data))
               ({[id]} ∪ index w)
               (log w ++ [EAddToIndex id;
                          EUpsert (buildId this id) (assign_id id data)])).
Proof.
  intros H. destruct fuel; simpl; rewrite H;
    unfold await, addToIndex, storage_upsert, record, ret, assign_id;
    simpl; by rewrite <- app_assoc.
Qed.

(** The bound branch of [update] calls [update] on an instance that is
    still bound: no amount of fuel lets it return. *)
Lemma update_bound fuel : ∀ this id data w,
  is_Some (boundObject this) → update fuel this id data w = OutOfFuel.
Proof.
  induction fuel as [|fuel IH]; intros this id data w [e He];
    simpl; rewrite He; [done|].
  unfold await. rewrite IH; [done|]. by eexists.
Qed.

(** Likewise for [remove]. *)
Lemma remove_bound fuel : ∀ this id w,
  is_Some (boundObject this) → remove fuel this id w = OutOfFuel.
Proof.
  induction fuel as [|fuel IH]; intros this id w [e He];
    simpl; rewrite He; [done|].
  apply IH. by eexists.
Qed.

Lemma remove_unbound_absent fuel this id w :
  boundObject this = None →
  se_get (engine w) (buildId this id) = None →
  remove fuel this id w =
    Returned VNull
      (mkWorld (engine w) (index w) (log w ++ [EGet (buildId this id)])).
Proof.
  intros H Hget. destruct fuel; simpl; rewrite H;
    unfold await, storage_get, record; simpl; by rewrite Hget.
Qed.

Lemma remove_unbound_present fuel this id w :
  boundObject this = None →
  is_Some (se_get (engine w) (buildId this id)) →
  remove fuel this id w =
    Returned (VJs (se_remove (engine w) (buildId this id)).2)
      (mkWorld (se_remove (engine w) (buildId this id)).1
               (index w ∖ {[id]})
               (log w ++ [EGet (buildId this id); ERemoveFromIndex id;
                          ERemove (buildId this id)])).
Proof.
  intros H [m Hget]. destruct fuel; simpl; rewrite H;
    unfold await, storage_get, removeFromIndex, storage_remove, record;
    simpl; rewrite Hget; simpl;
    destruct (se_remove _ _) as [s r]; simpl;
    by rewrite <- !app_assoc.
Qed.

Lemma filter_eq this fn ids w :
  filter this fn ids w =
    Returned (map (λ r, new_MessageCache (Some r))
                  (se_filter (engine w) fn ids))
             (mkWorld (engine w) (index w) (log w ++ [EFilter ids])).
Proof. reflexivity. Qed.

Lemma find_eq this fn ids w :
  find this fn ids w =
    Returned (VCache (new_MessageCache (se_find (engine w) fn ids)))
             (mkWorld (engine w) (index w) (log w ++ [EFind ids])).
Proof. reflexivity. Qed.

(** Every instance handed out comes from the constructor. *)
Lemma produced_by_constructor c :
  produced c → ∃ arg, c = new_MessageCache arg.
Proof.
  intros [arg|this id w c' w' Hget|fuel this id data w this' c' w' Hupd
          |this fn ids w cs w' c' Hfil Hin|this fn ids w c' w' Hfind].
  - by exists arg.
  - destruct (boundObject this) as [e|] eqn:Hb.
    + rewrite (get_bound _ _ _ e Hb) in Hget. discriminate.
    + rewrite (get_unbound _ _ _ Hb) in Hget.
      destruct (se_get _ _) as [m|]; [|discriminate].
      exists (Some m). congruence.
  - destruct (boundObject this) as [e|] eqn:Hb.
    + rewrite update_bound in Hupd; [discriminate|]. by eexists.
    + rewrite (update_unbound _ _ _ _ _ Hb) in Hupd.
      exists (Some (assign_id id data)). congruence.
  - rewrite filter_eq in Hfil. injection Hfil as <- _.
    apply list_elem_of_fmap in Hin as (r & -> & _). by exists (Some r).
  - rewrite find_eq in Hfind.
    exists (se_find (engine w) fn ids). congruence.
Qed.
End CacheFacts.

(** ** Properties of the cache *)

Section Properties.
Context {S : Type} `{!StorageEngine S}.
Implicit Types (this : MessageCache) (id : JsVal) (data : Entity).
Implicit Types (w : World S).

(** C5: on an engine whose [get] returns what was last upserted at a
    key, [update(i, d)] on an unbound cache followed by [get(i)] on an
    unbound cache returns a cache bound to the entity [d], in which
    the [id] field is [i] when [d] carried none. *)
Theorem get_after_update
    (Hlaw : ∀ (s : S) k e, se_get (se_upsert s k e) k = Some e)
    fuel (c1 c2 : MessageCache) (i : JsVal) (d : Entity) w :
  boundObject c1 = None →
  boundObject c2 = None →
  namespace c1 = namespace c2 →
  ∃ w1 w2 (c : MessageCache) (e : Entity),
    update fuel c1 i d w = Returned (c1, new_MessageCache (Some e)) w1 ∧
    get c2 i w1 = Returned (VCache c) w2 ∧
    state c = Bound ∧
    boundObject c = Some e ∧
    (truthy (field d "id") = true → e = d) ∧
    (truthy (field d "id") = false →
       e = set_field d "id" i ∧ field e "id" = i).
Proof.
  intros H1 H2 Hns.
  eexists _, _, (new_MessageCache (Some (assign_id i d))), (assign_id i d).
  split; [by apply update_unbound|].
  split.
  { rewrite (get_unbound _ _ _ H2). simpl.
    replace (buildId c2 i) with (buildId c1 i)
      by (unfold buildId; by rewrite Hns).
    by rewrite Hlaw. }
  split; [done|]. split; [done|].
  unfold assign_id. split; intros ->; simpl; [done|].
  split; [done|]. unfold field, set_field. by rewrite lookup_insert_eq.
Qed.


(** C7: an instance handed out by the constructor, [get], [update],
    [filter] or [find] that is in the bound state holds an entity;
    it was built by the constructor, which binds only when its
    argument is not null. *)
Theorem bound_instance_holds_entity (c : MessageCache) :
  produced c →
  (state c = Bound → boundObject c ≠ None) ∧
  ∃ arg, c = new_MessageCache arg ∧ (state c = Bound → arg ≠ None).
Proof.
  intros [arg ->]%produced_by_constructor. split.
  - rewrite new_MessageCache_boundObject. apply new_MessageCache_state.
  - exists arg. split; [done|]. apply new_MessageCache_state.
Qed.

(** C9: [remove(i)] on an unbound cache, for an id with nothing stored
    under its key, returns null; the index and the engine are left as
    they were, and the only call made is the engine's [get]. *)
Theorem remove_of_absent_id_is_noop fuel this (i : JsVal) w :
  boundObject this = None →
  se_get (engine w) (buildId this i) = None →
  ∃ w', remove fuel this i w = Returned VNull w' ∧
    index w' = index w ∧
    engine w' = engine w ∧
    log w' = log w ++ [EGet (buildId this i)].
Proof.
  intros Hb Hget. eexists. split; [by apply remove_unbound_absent|done].
Qed.

(** C10: an unbound [update(id, data)] whose data carries a non-empty
    id other than [id] indexes [id], stores the data unchanged under
    the key built from [id], and returns an instance bound to that
    data, whose own id is not [id]. *)
Theorem update_keeps_the_id_data_carries fuel this id data w :
  boundObject this = None →
  truthy (field data "id") = true →
  field data "id" ≠ id →
  ∃ (c : MessageCache) w',
    update fuel this id data w = Returned (this, c) w' ∧
    state c = Bound ∧
    boundObject c = Some data ∧
    id ∈ index w' ∧
    engine w' = se_upsert (engine w) (buildId this id) data ∧
    log w' = log w ++ [EAddToIndex id; EUpsert (buildId this id) data] ∧
    ∀ e, boundObject c = Some e → field e "id" ≠ id.
Proof.
  intros Hb Hid Hne.
  assert (assign_id id data = data) as Hsame
    by (unfold assign_id; by rewrite Hid).
  eexists (new_MessageCache (Some data)), _.
  split; [rewrite (update_unbound _ _ _ _ _ Hb); by rewrite Hsame|].
  simpl. repeat split; try done; [set_solver|].
  intros e [= <-]. done.
Qed.
End Properties.

(** C8: [buildId] is the namespace, a dot and the id; for the namespace
    [message] and the id [42] it is [message.42]; and two different
    string ids never build the same key. *)
Theorem buildId_injective (this : MessageCache) (i1 i2 : string) :
  i1 ≠ i2 →
  buildId this (JStr i1) = namespace this +:+ "." +:+ i1 ∧
  buildId (new_MessageCache None) (JStr "42") = "message.42" ∧
  buildId this (JStr i1) ≠ buildId this (JStr i2).
Proof.
  intros Hne. repeat split.
  intros Heq. apply Hne. unfold buildId in Heq. simpl in Heq.
  apply append_inj_l in Heq. by injection Heq.
Qed.

(** ** The properties at sample inputs *)

Lemma get_after_update_witness :
  (∀ (s : gmap string Entity) k e, se_get (se_upsert s k e) k = Some e) ∧
  boundObject (new_MessageCache None) = None ∧
  ∃ w1 w2 (c : MessageCache) (e : Entity),
    update 0 (new_MessageCache None) (JStr "42") msg_hi empty_world
      = Returned (new_MessageCache None, new_MessageCache (Some e)) w1 ∧
    get (new_MessageCache None) (JStr "42") w1 = Returned (VCache c) w2 ∧
    state c = Bound ∧
    boundObject c = Some e ∧
    (truthy (field msg_hi "id") = true → e = msg_hi) ∧
    (truthy (field msg_hi "id") = false →
       e = set_field msg_hi "id" (JStr "42") ∧ field e "id" = JStr "42").
Proof.
  assert (∀ (s : gmap string Entity) k e,
            se_get (se_upsert s k e) k = Some e) as Hlaw
    by (intros s k e; apply lookup_insert_eq).
  split; [exact Hlaw|]. split; [reflexivity|].
  apply (get_after_update Hlaw 0 (new_MessageCache None)
           (new_MessageCache None) (JStr "42") msg_hi empty_world);
    reflexivity.
Defined.


Lemma bound_instance_holds_entity_witness :
  produced (S := gmap string Entity) (new_MessageCache (Some msg_42)) ∧
  (state (new_MessageCache (Some msg_42)) = Bound →
   boundObject (new_MessageCache (Some msg_42)) ≠ None) ∧
  ∃ arg, new_MessageCache (Some msg_42) = new_MessageCache arg ∧
         (state (new_MessageCache (Some msg_42)) = Bound → arg ≠ None).
Proof.
  assert (produced (S := gmap string Entity)
            (new_MessageCache (Some msg_42))) as Hprod.
  { apply (produced_get (new_MessageCache None) (JStr "42") world_42 _
             (mkWorld (engine world_42) (index world_42)
                      (log world_42 ++ [EGet "message.42"]))).
    vm_compute. reflexivity. }
  split; [exact Hprod|].
  exact (bound_instance_holds_entity (S := gmap string Entity) _ Hprod).
Defined.

Lemma buildId_injective_witness :
  "42" ≠ "43" ∧
  buildId (new_MessageCache None) (JStr "42") = "message" +:+ "." +:+ "42" ∧
  buildId (new_MessageCache None) (JStr "42") = "message.42" ∧
  buildId (new_MessageCache None) (JStr "42")
    ≠ buildId (new_MessageCache None) (JStr "43").
Proof.
  assert ("42" ≠ "43") as Hne by (intros H; discriminate H).
  split; [exact Hne|].
  exact (buildId_injective (new_MessageCache None) "42" "43" Hne).
Defined.

Lemma remove_of_absent_id_is_noop_witness :
  boundObject (new_MessageCache None) = None ∧
  se_get (engine world_42) (buildId (new_MessageCache None) (JStr "7")) = None ∧
  ∃ w', remove 0 (new_MessageCache None) (JStr "7") world_42
          = Returned VNull w' ∧
    index w' = index world_42 ∧
    engine w' = engine world_42 ∧
    log w' = log world_42 ++ [EGet (buildId (new_MessageCache None) (JStr "7"))].
Proof.
  assert (se_get (engine world_42)
            (buildId (new_MessageCache None) (JStr "7")) = None) as Habsent
    by (vm_compute; reflexivity).
  split; [reflexivity|]. split; [exact Habsent|].
  exact (remove_of_absent_id_is_noop 0 (new_MessageCache None) (JStr "7")
           world_42 eq_refl Habsent).
Defined.

Lemma update_keeps_the_id_data_carries_witness :
  boundObject (new_MessageCache None) = None ∧
  truthy (field msg_7 "id") = true ∧
  field msg_7 "id" ≠ JStr "42" ∧
  ∃ (c : MessageCache) w',
    update 0 (new_MessageCache None) (JStr "42") msg_7 empty_world
      = Returned (new_MessageCache None, c) w' ∧
    state c = Bound ∧
    boundObject c = Some msg_7 ∧
    JStr "42" ∈ index w' ∧
    engine w' = se_upsert (engine empty_world)
                  (buildId (new_MessageCache None) (JStr "42")) msg_7 ∧
    log w' = log empty_world ++
      [EAddToIndex (JStr "42");
       EUpsert (buildId (new_MessageCache None) (JStr "42")) msg_7] ∧
    ∀ e, boundObject c = Some e → field e "id" ≠ JStr "42".
Proof.
  assert (truthy (field msg_7 "id") = true) as Hid
    by (vm_compute; reflexivity).
  assert (field msg_7 "id" ≠ JStr "42") as Hne
    by (vm_compute; intros H; discriminate H).
  split; [reflexivity|]. split; [exact Hid|]. split; [exact Hne|].
  exact (update_keeps_the_id_data_carries 0 (new_MessageCache None)
           (JStr "42") msg_7 empty_world eq_refl Hid Hne).
Defined.

(** ** Where the code departs from its documentation *)

(** C1: [update] on a bound instance rebinds it and calls [update] on
    it again while it is still bound, so the call re-enters the bound
    branch whatever the depth: it never returns and never reaches the
    index or the engine, whereas the unbound [update] with the new
    data's id returns. *)
Theorem update_on_bound_instance_never_returns (fuel : nat) :
  update fuel (new_MessageCache (Some msg_42)) (JStr "42") msg_42_edited
         world_42 = OutOfFuel ∧
  ∃ (c : MessageCache) w',
    update fuel (new_MessageCache None) (field msg_42_edited "id")
           msg_42_edited world_42
      = Returned (new_MessageCache None, c) w' ∧
    boundObject c = Some msg_42_edited.
Proof.
  split.
  - apply update_bound. by eexists.
  - eexists _, _. split; [by apply update_unbound|].
    vm_compute. reflexivity.
Qed.

(** C2: [get] on a bound instance returns the bound entity itself, not
    the cache instance; it asks nothing of the engine and does not look
    at the id. *)
Theorem get_on_bound_instance_returns_the_entity (id : JsVal) :
  get (new_MessageCache (Some msg_42)) id world_42
    = Returned (VEntity msg_42) world_42 ∧
  VEntity msg_42 ≠ VCache (new_MessageCache (Some msg_42)).
Proof. split; [by apply get_bound | discriminate]. Qed.

(** C3: when the engine's [find] yields nothing, [find] returns a
    cache instance in the unbound state rather than null. *)
Theorem find_without_match_returns_unbound_instance
    (fn : Entity → bool) (ids : option (list JsVal)) :
  se_find (engine empty_world) fn ids = None ∧
  ∃ (c : MessageCache) w',
    find (new_MessageCache None) fn ids empty_world = Returned (VCache c) w' ∧
    VCache c ≠ VNull ∧
    state c = Unbound ∧
    boundObject c = None.
Proof.
  assert (se_find (engine empty_world) fn ids = None) as Hnone.
  { simpl. destruct ids as [l|]; simpl.
    - induction l as [|i l IH]; [done|]. simpl.
      by rewrite lookup_empty.
    - by rewrite map_to_list_empty. }
  split; [done|].
  eexists _, _. rewrite find_eq, Hnone. done.
Qed.

(** C4: [remove] on a bound instance calls [remove] on the same, still
    bound, instance, so it re-enters the bound branch whatever the
    depth: it never returns a signal and never reaches the index or
    the engine, whereas the unbound [remove] with the entity's own id
    returns what the engine's removal returns. *)
Theorem remove_on_bound_instance_never_returns (fuel : nat) (id : JsVal) :
  remove fuel (new_MessageCache (Some msg_42)) id world_42 = OutOfFuel ∧
  ∃ r w',
    remove fuel (new_MessageCache None) (field msg_42 "id") world_42
      = Returned (VJs r) w'.
Proof.
  split.
  - apply remove_bound. by eexists.
  - eexists _, _. apply remove_unbound_present; [done|].
    exists msg_42. vm_compute. reflexivity.
Qed.

(** ** Further properties of the cache *)

Lemma buildId_inj_str (this : MessageCache) (a b : string) :
  buildId this (JStr a) = buildId this (JStr b) → a = b.
Proof.
  unfold buildId. simpl. intros H%append_inj_l. by injection H.
Qed.

#[global] Instance MemoryEngine_lawful : LawfulEngine (gmap string Entity).
Proof.
  split; simpl.
  - intros s k e. apply lookup_insert_eq.
  - intros s k k' e Hne. by apply lookup_insert_ne.
  - intros s k. apply lookup_delete_eq.
  - intros s k k' Hne. by apply lookup_delete_ne.
Qed.

(** X4: The keys a built key can be confused with: two ids build the same
    key exactly when they interpolate to the same string, so the id
    [undefined] shares its key with the string id ["undefined"]. *)
Theorem buildId_collides_iff_same_string (this : MessageCache) (a b : JsVal) :
  (buildId this a = buildId this b ↔ toString a = toString b) ∧
  buildId this JUndefined = buildId this (JStr "undefined").
Proof.
  split; [|done]. unfold buildId. split.
  - intros H%append_inj_l. by injection H.
  - by intros ->.
Qed.

Section MoreProperties.
Context {S : Type} `{!StorageEngine S}.
Implicit Types (this : MessageCache) (id : JsVal) (data : Entity).
Implicit Types (w : World S).

(** X1: [get], [filter] and [find] only read: on any instance, bound or
    not, each returns and leaves the engine's state and the index as
    they were. *)
Theorem queries_are_read_only this id fn ids w :
  (∃ v w', get this id w = Returned v w' ∧
     engine w' = engine w ∧ index w' = index w) ∧
  (∃ cs w', filter this fn ids w = Returned cs w' ∧
     engine w' = engine w ∧ index w' = index w) ∧
  (∃ v w', find this fn ids w = Returned v w' ∧
     engine w' = engine w ∧ index w' = index w).
Proof.
  split; [|split].
  - destruct (boundObject this) as [e|] eqn:Hb.
    + eexists _, _. split; [by apply get_bound|done].
    + eexists _, _. split; [by apply get_unbound|done].
  - eexists _, _. split; [apply filter_eq|done].
  - eexists _, _. split; [apply find_eq|done].
Qed.

(** X2: [filter] hands back one instance per entity the engine's [filter]
    yields, in the same order, each in the bound state and holding that
    entity, under the namespace [message]; whether the instance it is
    called on is bound plays no part. *)
Theorem filter_wraps_each_entity this fn ids w :
  ∃ cs w',
    filter this fn ids w = Returned cs w' ∧
    boundObject <$> cs = Some <$> se_filter (engine w) fn ids ∧
    Forall (λ c, state c = Bound ∧ namespace c = "message") cs ∧
    log w' = log w ++ [EFilter ids].
Proof.
  eexists _, _. split; [apply filter_eq|]. split; [|split; [|done]].
  - rewrite <- list_fmap_compose. by apply list_fmap_ext.
  - apply Forall_fmap, Forall_true. done.
Qed.

(** X3: When the engine's [find] yields an entity, [find] hands back a new
    instance in the bound state that holds it, also when called on a
    bound instance: unlike [get], it does not answer from the bound
    object. *)
Theorem find_wraps_the_match this fn ids w (m : Entity) :
  se_find (engine w) fn ids = Some m →
  ∃ (c : MessageCache) w',
    find this fn ids w = Returned (VCache c) w' ∧
    state c = Bound ∧
    boundObject c = Some m ∧
    log w' = log w ++ [EFind ids].
Proof.
  intros Hm. eexists _, _. rewrite find_eq, Hm. done.
Qed.

(** X5: An unbound [update] leaves the instance it is called on unbound and
    returns another instance, bound to the data in which only the [id]
    field may have changed: it reads as before when it was truthy, and
    as the argument otherwise (so an empty id is overwritten). *)
Theorem unbound_update_touches_only_id fuel this id data w :
  boundObject this = None →
  ∃ (e : Entity) w',
    update fuel this id data w
      = Returned (this, new_MessageCache (Some e)) w' ∧
    new_MessageCache (Some e) ≠ this ∧
    (∀ f, f ≠ "id" → e !! f = data !! f) ∧
    field e "id"
      = (if truthy (field data "id") then field data "id" else id).
Proof.
  intros Hb. exists (assign_id id data). eexists.
  split; [by apply update_unbound|].
  split; [intros Heq; rewrite <- Heq in Hb; discriminate|].
  unfold assign_id. destruct (truthy (field data "id")); simpl.
  - done.
  - unfold field, set_field. split.
    + intros f Hf. by rewrite lookup_insert_ne.
    + by rewrite lookup_insert_eq.
Qed.


(** X7: Every instance the cache hands out has the namespace [message], so
    the keys it builds are the id behind the prefix [message.]. *)
Theorem produced_instances_use_message_namespace (c : MessageCache) id :
  produced c →
  namespace c = "message" ∧ buildId c id = "message." +:+ toString id.
Proof.
  intros [arg ->]%produced_by_constructor. by destruct arg.
Qed.
End MoreProperties.

Section LawfulProperties.
Context {S : Type} `{!StorageEngine S} `{!LawfulEngine S}.
Implicit Types (this : MessageCache) (data : Entity) (w : World S).

Lemma buildId_ne_str this (i j : string) :
  i ≠ j → buildId this (JStr i) ≠ buildId this (JStr j).
Proof. intros Hne Heq. by apply Hne, (buildId_inj_str this). Qed.

Lemma in_sync_update fuel this (i : string) data w r w' :
  boundObject this = None →
  in_sync this w →
  update fuel this (JStr i) data w = Returned r w' →
  in_sync this w'.
Proof.
  intros Hb Hs Hupd. rewrite (update_unbound _ _ _ _ _ Hb) in Hupd.
  injection Hupd as _ <-. intros v. simpl.
  rewrite elem_of_union, elem_of_singleton, (Hs v). split.
  - intros [->|(s & -> & Hsome)].
    + exists i. split; [done|]. rewrite get_upsert_eq. by eexists.
    + exists s. split; [done|]. destruct (decide (i = s)) as [->|Hne].
      * rewrite get_upsert_eq. by eexists.
      * rewrite get_upsert_ne; [done|]. by apply buildId_ne_str.
  - intros (s & -> & Hsome). destruct (decide (i = s)) as [->|Hne].
    + by left.
    + right. exists s. split; [done|].
      rewrite get_upsert_ne in Hsome; [done|]. by apply buildId_ne_str.
Qed.

Lemma in_sync_remove fuel this (i : string) w v w' :
  boundObject this = None →
  in_sync this w →
  remove fuel this (JStr i) w = Returned v w' →
  in_sync this w'.
Proof.
  intros Hb Hs Hrem.
  destruct (se_get (engine w) (buildId this (JStr i))) as [m|] eqn:Hget.
  - rewrite remove_unbound_present in Hrem;
      [|done|rewrite Hget; by eexists].
    injection Hrem as _ <-. intros x. simpl.
    rewrite elem_of_difference, elem_of_singleton, (Hs x). split.
    + intros [(s & -> & Hsome) Hx]. exists s. split; [done|].
      rewrite get_remove_ne; [done|].
      apply buildId_ne_str. congruence.
    + intros (s & -> & Hsome). destruct (decide (i = s)) as [->|Hne].
      * rewrite get_remove_eq in Hsome. by destruct Hsome.
      * rewrite get_remove_ne in Hsome by by apply buildId_ne_str.
        split; [by exists s|congruence].
  - rewrite (remove_unbound_absent _ _ _ _ Hb Hget) in Hrem.
    injection Hrem as _ <-. exact Hs.
Qed.

Lemma call_unbound this c w :
  boundObject this = None →
  ∃ w', call this c w = Returned tt w' ∧
        (in_sync this w → in_sync this w').
Proof.
  intros Hb. destruct c as [i|i d|i|fn ids|fn ids]; unfold call, await.
  - rewrite (get_unbound _ _ _ Hb). by eexists.
  - destruct (update 0 this (JStr i) d w) as [r w'| |] eqn:Hupd;
      try (rewrite (update_unbound _ _ _ _ _ Hb) in Hupd; discriminate).
    eexists. split; [done|]. intros Hs. by eapply in_sync_update.
  - destruct (remove 0 this (JStr i) w) as [r w'| |] eqn:Hrem.
    + eexists. split; [done|]. intros Hs. by eapply in_sync_remove.
    + destruct (se_get (engine w) (buildId this (JStr i))) eqn:Hget.
      * rewrite remove_unbound_present in Hrem;
          [discriminate|done|rewrite Hget; by eexists].
      * rewrite (remove_unbound_absent _ _ _ _ Hb Hget) in Hrem.
        discriminate.
    + destruct (se_get (engine w) (buildId this (JStr i))) eqn:Hget.
      * rewrite remove_unbound_present in Hrem;
          [discriminate|done|rewrite Hget; by eexists].
      * rewrite (remove_unbound_absent _ _ _ _ Hb Hget) in Hrem.
        discriminate.
  - rewrite filter_eq. by eexists.
  - rewrite find_eq. by eexists.
Qed.


(** X9: The last [update] of an id wins: after [update(i, d1)] and
    [update(i, d2)], [get(i)] returns an instance bound to [d2] (with
    its id assigned as [update] does). *)
Theorem last_update_wins fuel this (i : JsVal) (d1 d2 : Entity) w :
  boundObject this = None →
  ∃ r1 w1 r2 w2 w3,
    update fuel this i d1 w = Returned r1 w1 ∧
    update fuel this i d2 w1 = Returned r2 w2 ∧
    get this i w2
      = Returned (VCache (new_MessageCache (Some (assign_id i d2)))) w3.
Proof.
  intros Hb. eexists _, _, _, _, _.
  split; [by apply update_unbound|].
  split; [by apply update_unbound|].
  rewrite (get_unbound _ _ _ Hb). simpl. by rewrite get_upsert_eq.
Qed.


(** X11: A [remove] of one string id does not change what [get] returns for
    another, nor whether the index holds it. *)
Theorem remove_leaves_other_ids fuel this (i j : string) w :
  boundObject this = None →
  i ≠ j →
  ∃ r w1 v w2 w3,
    remove fuel this (JStr i) w = Returned r w1 ∧
    (JStr j ∈ index w1 ↔ JStr j ∈ index w) ∧
    get this (JStr j) w = Returned v w2 ∧
    get this (JStr j) w1 = Returned v w3.
Proof.
  intros Hb Hne.
  destruct (se_get (engine w) (buildId this (JStr i))) as [m|] eqn:Hget.
  - eexists _, _, _, _, _.
    split; [apply remove_unbound_present; [done|rewrite Hget; by eexists]|].
    simpl. rewrite elem_of_difference, elem_of_singleton.
    split; [split; [by intros [? _]|intros ?; split; [done|congruence]]|].
    split; [by apply get_unbound|].
    rewrite (get_unbound _ _ _ Hb). simpl.
    rewrite get_remove_ne; [done|]. by apply buildId_ne_str.
  - eexists _, _, _, _, _.
    split; [by apply remove_unbound_absent|].
    simpl. split; [done|].
    split; [by apply get_unbound|].
    by rewrite (get_unbound _ _ _ Hb).
Qed.

(** X12: Calls on an unbound cache keep the index and the store in step:
    if the index holds exactly the string ids that have an entity under
    their key, it still does after any sequence of [get], [update],
    [remove], [filter] and [find] calls with string ids, each of which
    returns. *)
Theorem calls_keep_index_in_sync this (cs : list Call) w :
  boundObject this = None →
  in_sync this w →
  ∃ w', calls this cs w = Returned tt w' ∧ in_sync this w'.
Proof.
  intros Hb. revert w. induction cs as [|c cs IH]; intros w Hs.
  - by exists w.
  - simpl. unfold await.
    destruct (call_unbound this c w Hb) as (w1 & -> & Hkeep).
    apply IH, Hkeep, Hs.
Qed.
End LawfulProperties.

(** ** The further properties at sample inputs *)

Lemma find_wraps_the_match_witness :
  se_find (engine world_42) has_content None = Some msg_42 ∧
  ∃ (c : MessageCache) w',
    find (new_MessageCache (Some msg_7)) has_content None world_42
      = Returned (VCache c) w' ∧
    state c = Bound ∧
    boundObject c = Some msg_42 ∧
    log w' = log world_42 ++ [EFind None].
Proof.
  assert (se_find (engine world_42) has_content None = Some msg_42) as Hm
    by (vm_compute; reflexivity).
  split; [exact Hm|].
  exact (find_wraps_the_match (new_MessageCache (Some msg_7)) has_content
           None world_42 msg_42 Hm).
Defined.

Lemma unbound_update_touches_only_id_witness :
  boundObject (new_MessageCache None) = None ∧
  ∃ (e : Entity) w',
    update 0 (new_MessageCache None) (JStr "42") msg_hi empty_world
      = Returned (new_MessageCache None, new_MessageCache (Some e)) w' ∧
    new_MessageCache (Some e) ≠ new_MessageCache None ∧
    (∀ f, f ≠ "id" → e !! f = msg_hi !! f) ∧
    field e "id"
      = (if truthy (field msg_hi "id") then field msg_hi "id" else JStr "42").
Proof.
  split; [reflexivity|].
  exact (unbound_update_touches_only_id 0 (new_MessageCache None) (JStr "42")
           msg_hi empty_world eq_refl).
Defined.

Lemma produced_instances_use_message_namespace_witness :
  produced (S := gmap string Entity) (new_MessageCache (Some msg_42)) ∧
  namespace (new_MessageCache (Some msg_42)) = "message" ∧
  buildId (new_MessageCache (Some msg_42)) (JStr "42")
    = "message." +:+ toString (JStr "42").
Proof.
  assert (produced (S := gmap string Entity)
            (new_MessageCache (Some msg_42))) as Hprod.
  { apply (produced_find (new_MessageCache None) has_content None world_42 _
             (mkWorld (engine world_42) (index world_42)
                      (log world_42 ++ [EFind None]))).
    vm_compute. reflexivity. }
  split; [exact Hprod|].
  exact (produced_instances_use_message_namespace (S := gmap string Entity)
           _ (JStr "42") Hprod).
Defined.


Lemma last_update_wins_witness :
  LawfulEngine (gmap string Entity) ∧
  boundObject (new_MessageCache None) = None ∧
  ∃ r1 w1 r2 w2 w3,
    update 0 (new_MessageCache None) (JStr "42") msg_hi empty_world
      = Returned r1 w1 ∧
    update 0 (new_MessageCache None) (JStr "42") msg_42_edited w1
      = Returned r2 w2 ∧
    get (new_MessageCache None) (JStr "42") w2
      = Returned
          (VCache (new_MessageCache
                     (Some (assign_id (JStr "42") msg_42_edited)))) w3.
Proof.
  split; [exact MemoryEngine_lawful|]. split; [reflexivity|].
  exact (last_update_wins 0 (new_MessageCache None) (JStr "42") msg_hi
           msg_42_edited empty_world eq_refl).
Defined.


Lemma remove_leaves_other_ids_witness :
  LawfulEngine (gmap string Entity) ∧
  boundObject (new_MessageCache None) = None ∧
  "42" ≠ "7" ∧
  ∃ r w1 v w2 w3,
    remove 0 (new_MessageCache None) (JStr "42") world_42_7
      = Returned r w1 ∧
    (JStr "7" ∈ index w1 ↔ JStr "7" ∈ index world_42_7) ∧
    get (new_MessageCache None) (JStr "7") world_42_7 = Returned v w2 ∧
    get (new_MessageCache None) (JStr "7") w1 = Returned v w3.
Proof.
  assert ("42" ≠ "7") as Hne by (intros H; discriminate H).
  split; [exact MemoryEngine_lawful|]. split; [reflexivity|].
  split; [exact Hne|].
  exact (remove_leaves_other_ids 0 (new_MessageCache None) "42" "7"
           world_42_7 eq_refl Hne).
Defined.

Lemma calls_keep_index_in_sync_witness :
  LawfulEngine (gmap string Entity) ∧
  boundObject (new_MessageCache None) = None ∧
  in_sync (new_MessageCache None) empty_world ∧
  ∃ w',
    calls (new_MessageCache None)
      [CallUpdate "42" msg_hi; CallGet "42"; CallUpdate "7" msg_7;
       CallFind has_content None; CallRemove "42"; CallRemove "42"]
      empty_world = Returned tt w' ∧
    in_sync (new_MessageCache None) w'.
Proof.
  assert (in_sync (new_MessageCache None) empty_world) as Hsync.
  { intros v. simpl. split.
    - intros Hin. by apply not_elem_of_empty in Hin.
    - intros (s & _ & [m Hm]). by rewrite lookup_empty in Hm. }
  split; [exact MemoryEngine_lawful|]. split; [reflexivity|].
  split; [exact Hsync|].
  exact (calls_keep_index_in_sync (new_MessageCache None) _ empty_world
           eq_refl Hsync).
Defined.
